(** * Startup Idea Validator: a shallow embedding of [agent.py]

    The script [main()] of [agent.py] is a Streamlit page: it is run from
    top to bottom once per user interaction, reads the environment and the
    widgets, keeps an agent executor and a conversation history in
    [st.session_state], and delegates the evaluation to a LangChain
    [AgentExecutor].

    Text.  A Python [str] is modelled as a [string] whose characters are the
    code points U+0000..U+00FF; [lower] and [strip] follow CPython on that
    range.  The emoji of the user-interface labels lie outside it and are
    written as their UTF-8 bytes; no operation of the script inspects them. *)

From stdpp Require Import base options strings list gmap.
From Stdlib Require Import Ascii QArith.QArith_base.

Local Open Scope string_scope.
Local Open Scope list_scope.
Local Open Scope nat_scope.

(** ** Python text primitives *)

Module PyStr.

(** Code point of a character. *)
Definition ord (c : ascii) : nat := nat_of_ascii c.

(** [str.isspace] on one character: U+0009..U+000D, U+001C..U+0020,
    U+0085 and U+00A0. *)
Definition isspace (c : ascii) : bool :=
  let n := ord c in
  ((9 <=? n) && (n <=? 13)) || ((28 <=? n) && (n <=? 32))
  || (n =? 133) || (n =? 160).

(** [str.lower] on one character: A-Z, and the Latin-1 capitals
    U+00C0..U+00DE except the multiplication sign U+00D7. *)
Definition lower_char (c : ascii) : ascii :=
  let n := ord c in
  if ((65 <=? n) && (n <=? 90))
     || ((192 <=? n) && (n <=? 222) && negb (n =? 215))
  then ascii_of_nat (n + 32) else c.

(** [s.lower()] *)
Fixpoint lower (s : string) : string :=
  match s with
  | EmptyString => EmptyString
  | String c s' => String (lower_char c) (lower s')
  end.

(** [s.lstrip()] *)
Fixpoint lstrip (s : string) : string :=
  match s with
  | EmptyString => EmptyString
  | String c s' => if isspace c then lstrip s' else s
  end.

(** [s.rstrip()]: a character is kept when it is not white space or when
    something is kept after it. *)
Fixpoint rstrip (s : string) : string :=
  match s with
  | EmptyString => EmptyString
  | String c s' =>
      match rstrip s' with
      | EmptyString => if isspace c then EmptyString else String c EmptyString
      | r => String c r
      end
  end.

(** [s.strip()] *)
Definition strip (s : string) : string := rstrip (lstrip s).

(** Every character of [s] is white space (so is the empty string). *)
Fixpoint all_space (s : string) : bool :=
  match s with
  | EmptyString => true
  | String c s' => isspace c && all_space s'
  end.

(** Truth value of a [str]: the empty string is false. *)
Definition truthy (s : string) : bool :=
  match s with EmptyString => false | _ => true end.

(** Truth value of an [Optional[str]]: [None] and the empty string are
    false. *)
Definition truthy_opt (o : option string) : bool :=
  match o with None => false | Some s => truthy s end.

(** [a or b] on strings. *)
Definition or_else (a b : string) : string := if truthy a then a else b.

(** [s.split(sep)] for a one-character separator: the pieces between the
    occurrences of [sep], empty pieces included; never the empty list. *)
Fixpoint split (sep : ascii) (s : string) : list string :=
  match s with
  | EmptyString => [EmptyString]
  | String c s' =>
      if Ascii.eqb c sep then EmptyString :: split sep s'
      else match split sep s' with
           | piece :: pieces => String c piece :: pieces
           | [] => [String c EmptyString]
           end
  end.

(** The line feed, ["\n"]. *)
Definition LF : ascii := ascii_of_nat 10.
Definition nl : string := String LF EmptyString.

(** [sub in s] *)
Definition contains (sub s : string) : Prop :=
  ∃ pre post, s = pre +:+ sub +:+ post.

End PyStr.

(** ** The user-segment expander (agent.py, lines 58-72) *)

(** The dictionary [mapping]. *)
Definition mapping : gmap string string :=
  <["students" :=
      "College students, High school students, Exam aspirants, Skill learners"]>
  (<["business owners" :=
      "Small business owners, Entrepreneurs, Startup founders"]>
  (<["developers" :=
      "Software developers, Programmers, Data scientists"]> ∅)).

(** [d.get(key, dflt)] *)
Definition dict_get {V} (d : gmap string V) (key : string) (dflt : V) : V :=
  default dflt (d !! key).

(** The f-string of the fall-back answer. *)
Definition fallback (user_group : string) : string :=
  "Expanded users for '" +:+ user_group
    +:+ "' could include a broader audience.".

Definition expand_target_users (user_group : string) : string :=
  let key := PyStr.lower user_group in
  dict_get mapping key (fallback user_group).


(** ** Objects built by the script *)

(** [TavilySearchResults(api_key=..., max_results=..., include_answer=...)] *)
Record TavilySearchResults := {
  tavily_key : option string;
  max_results : nat;
  include_answer : bool
}.

(** [ChatGroq(api_key=..., model_name=..., temperature=..., max_tokens=...)];
    the decimal literal [0.6] is kept as the fraction it denotes. *)
Record ChatGroq := {
  api_key : option string;
  model_name : string;
  temperature : Q;
  max_tokens : nat
}.

(** The two kinds of tool of the script: the search tool object, and a
    function wrapped by the [@tool] decorator under its own name. *)
Inductive Tool :=
  | SearchTool (cfg : TavilySearchResults)
  | FunctionTool (name : string) (func : string → string).

(** The entries of [ChatPromptTemplate.from_messages]. *)
Inductive PromptPart :=
  | PromptMessage (role : string) (template : string)
  | MessagesPlaceholder (variable_name : string).

(** [create_tool_calling_agent(llm, tools, prompt)] *)
Record ToolCallingAgent := {
  agent_llm : ChatGroq;
  agent_tools : list Tool;
  agent_prompt : list PromptPart
}.

(** [AgentExecutor(agent=..., tools=..., verbose=..., max_iterations=...,
    handle_parsing_errors=...)] *)
Record AgentExecutor := {
  agent : ToolCallingAgent;
  tools : list Tool;
  verbose : bool;
  max_iterations : nat;
  handle_parsing_errors : bool
}.

(** An entry of the conversation history: the tuple [(role, text)]. *)
Definition message : Type := string * string.

(** The dictionary an invocation returns, with the text [str(response)]
    gives for it. *)
Record Response := {
  resp_items : gmap string string;
  resp_str : string
}.

(** A Python exception (of class [Exception]), with the text [str(e)]. *)
Record Exception := {
  exc_class : string;
  exc_str : string
}.

(** ** The world the script runs in *)

(** [st.session_state]: the two keys the script uses; [None] is a key that
    is not in the session state. *)
Record SessionState := {
  agent_executor : option AgentExecutor;
  chat_history : option (list message)
}.

(** What a run does that can be observed: the Streamlit calls, in order, and
    the invocations of the agent executor with their arguments. *)
Inductive event :=
  | StError (body : string)
  | StWarning (body : string)
  | StSetPageConfig (page_title layout : string)
  | StTitle (body : string)
  | StWrite (body : string)
  | StTextArea (label placeholder : string)
  | StTextInput (label placeholder : string)
  | StButton (label : string)
  | StSpinner (text : string)
  | StSubheader (body : string)
  | StMarkdown (body : string)
  | Invoke (executor : AgentExecutor) (input : string)
           (history : list message).

Record World := {
  session_state : SessionState;
  log : list event
}.

(** How a piece of the script ends: normally with a value, with an exception
    on its way up, or stopped by [st.stop()] (whose exception is not an
    [Exception], so that no [except Exception] catches it). *)
Inductive outcome (A : Type) :=
  | Done (a : A)
  | Raised (e : Exception)
  | Halted.
Arguments Done {A} a.
Arguments Raised {A} e.
Arguments Halted {A}.

Definition Script (A : Type) : Type := World → outcome A * World.

#[global] Instance Script_ret : MRet Script := λ A a w, (Done a, w).

#[global] Instance Script_bind : MBind Script := λ A B f m w,
  match m w with
  | (Done a, w') => f a w'
  | (Raised e, w') => (Raised e, w')
  | (Halted, w') => (Halted, w')
  end.

Definition raise {A} (e : Exception) : Script A := λ w, (Raised e, w).

(** [try: body  except Exception as e: handler e] *)
Definition try_except {A} (body : Script A) (handler : Exception → Script A)
  : Script A := λ w,
  match body w with
  | (Raised e, w') => handler e w'
  | r => r
  end.

Definition skip : Script () := mret ().

(** [for x in xs: body x] *)
Fixpoint for_each {A} (xs : list A) (body : A → Script ()) : Script () :=
  match xs with
  | [] => skip
  | x :: xs' => body x ;; for_each xs' body
  end.

Definition emit (e : event) : Script () := λ w,
  (Done (), {| session_state := session_state w; log := log w ++ [e] |}).

(** *** Streamlit *)

Module st.
Definition error (body : string) : Script () := emit (StError body).
Definition warning (body : string) : Script () := emit (StWarning body).
Definition stop : Script () := λ w, (Halted, w).
Definition set_page_config (page_title layout : string) : Script () :=
  emit (StSetPageConfig page_title layout).
Definition title (body : string) : Script () := emit (StTitle body).
Definition write (body : string) : Script () := emit (StWrite body).
Definition subheader (body : string) : Script () := emit (StSubheader body).
Definition markdown (body : string) : Script () := emit (StMarkdown body).

(** A widget is drawn and gives back the value the user left in it. *)
Definition text_area (label placeholder value : string) : Script string :=
  emit (StTextArea label placeholder) ;; mret value.
Definition text_input (label placeholder value : string) : Script string :=
  emit (StTextInput label placeholder) ;; mret value.
Definition button (label : string) (clicked : bool) : Script bool :=
  emit (StButton label) ;; mret clicked.

(** [with st.spinner(text): body] *)
Definition spinner {A} (text : string) (body : Script A) : Script A :=
  emit (StSpinner text) ;; body.
End st.

(** *** [st.session_state] *)

Definition AttributeError (key : string) : Exception :=
  {| exc_class := "AttributeError";
     exc_str := "st.session_state has no attribute " +:+ key |}.

(** ["agent_executor" in st.session_state] *)
Definition has_agent_executor : Script bool := λ w,
  (Done (bool_decide (is_Some (agent_executor (session_state w)))), w).

(** ["chat_history" in st.session_state] *)
Definition has_chat_history : Script bool := λ w,
  (Done (bool_decide (is_Some (chat_history (session_state w)))), w).

(** [st.session_state.agent_executor = ex] *)
Definition set_agent_executor (ex : AgentExecutor) : Script () := λ w,
  (Done (),
   {| session_state :=
        {| agent_executor := Some ex;
           chat_history := chat_history (session_state w) |};
      log := log w |}).

(** [st.session_state.chat_history = h] *)
Definition set_chat_history (h : list message) : Script () := λ w,
  (Done (),
   {| session_state :=
        {| agent_executor := agent_executor (session_state w);
           chat_history := Some h |};
      log := log w |}).

(** [st.session_state.agent_executor] *)
Definition get_agent_executor : Script AgentExecutor := λ w,
  match agent_executor (session_state w) with
  | Some ex => (Done ex, w)
  | None => (Raised (AttributeError "agent_executor"), w)
  end.

(** [st.session_state.chat_history] *)
Definition get_chat_history : Script (list message) := λ w,
  match chat_history (session_state w) with
  | Some h => (Done h, w)
  | None => (Raised (AttributeError "chat_history"), w)
  end.

(** [st.session_state.chat_history.append(m)]: the list object held by the
    session state is extended in place. *)
Definition chat_history_append (m : message) : Script () :=
  h ← get_chat_history; set_chat_history (h ++ [m]).

(** *** The agent executor, from outside

    What [executor.invoke] answers is decided by the language model and the
    tools, outside the script: a dictionary, or an exception.  The history
    list is handed over by reference and is only read there. *)
Definition AgentBehaviour : Type :=
  AgentExecutor → string → list message → Response + Exception.

(** [executor.invoke({"input": input, "chat_history": history})] *)
Definition invoke (world : AgentBehaviour) (executor : AgentExecutor)
    (input : string) (history : list message) : Script Response := λ w,
  let w' := {| session_state := session_state w;
               log := log w ++ [Invoke executor input history] |} in
  match world executor input history with
  | inl response => (Done response, w')
  | inr e => (Raised e, w')
  end.

(** ** The script (agent.py, [main]) *)

(** The process environment after [load_dotenv()]: what [os.getenv] gives
    for the two keys ([None] for a variable that is not set). *)
Record Environ := {
  GROQ_API_KEY : option string;
  TAVILY_API_KEY : option string
}.

(** What the user left in the widgets when the run started. *)
Record Form := {
  idea : string;
  target_users : string;
  market_info : string;
  analyze_btn : bool
}.

Definition system_prompt : string := "
You are a startup evaluation expert AI agent.

You have access to the following tools:
- expand_target_users: use ONLY if target users are vague or narrow.
- tavily_search_results_json: use ONLY if market info is missing, unclear, or needed for validation.

Guidelines:
- Do not call tools unnecessarily.
- Prefer reasoning before using tools.
- Base conclusions on evidence when tools are used.
- Provide strengths, weaknesses, risk analysis,
  monetization ideas, and a viability score out of 10.
".

Section script.
Variable env : Environ.
Variable form : Form.
Variable world : AgentBehaviour.

Definition groq_api_key : option string := GROQ_API_KEY env.
Definition tavily_api_key : option string := TAVILY_API_KEY env.

Definition tavily_tool : TavilySearchResults :=
  {| tavily_key := tavily_api_key;
     max_results := 5;
     include_answer := true |}.

Definition script_tools : list Tool :=
  [SearchTool tavily_tool;
   FunctionTool "expand_target_users" expand_target_users].

Definition prompt : list PromptPart :=
  [PromptMessage "system" system_prompt;
   MessagesPlaceholder "chat_history";
   PromptMessage "human" "{input}";
   MessagesPlaceholder "agent_scratchpad"].

Definition create_agent : AgentExecutor :=
  let llm := {| api_key := groq_api_key;
                model_name := "llama-3.3-70b-versatile";
                temperature := Qmake 6 10;
                max_tokens := 1024 |} in
  let agent := {| agent_llm := llm;
                  agent_tools := script_tools;
                  agent_prompt := prompt |} in
  {| agent := agent;
     tools := script_tools;
     verbose := false;
     max_iterations := 3;
     handle_parsing_errors := true |}.

(** The f-string sent to the agent (lines 129-133). *)
Definition user_input_of (idea target_users market_info : string) : string :=
  PyStr.nl +:+ "Startup Idea: " +:+ idea +:+ PyStr.nl
  +:+ "Target Users: " +:+ target_users +:+ PyStr.nl
  +:+ "Market Info: " +:+ PyStr.or_else market_info "None provided"
  +:+ PyStr.nl.

(** Lines 135-152: the invocation and what follows it. *)
Definition evaluate (user_input : string) : Script () :=
  try_except
    (executor ← get_agent_executor;
     history ← get_chat_history;
     response ← invoke world executor user_input history;
     let output_text :=
       dict_get (resp_items response) "output" (resp_str response) in
     chat_history_append ("human", user_input) ;;
     chat_history_append ("assistant", output_text) ;;
     st.subheader "📊 Startup Evaluation Result" ;;
     for_each (PyStr.split PyStr.LF output_text) (λ line,
       if PyStr.truthy (PyStr.strip line) then st.markdown line else skip))
    (λ e, st.error ("❌ Error running agent: " +:+ exc_str e)).

(** Lines 124-152. *)
Definition main_logic (idea target_users market_info : string)
    (analyze_btn : bool) : Script () :=
  if analyze_btn then
    if negb (PyStr.truthy (PyStr.strip idea))
       || negb (PyStr.truthy (PyStr.strip target_users))
    then st.warning "⚠️ Please fill in both idea and target users fields."
    else
      st.spinner "🔍 Evaluating your startup idea..."
        (let user_input := user_input_of idea target_users market_info in
         evaluate user_input)
  else skip.

Definition main : Script () :=
  (if negb (PyStr.truthy_opt groq_api_key)
      || negb (PyStr.truthy_opt tavily_api_key)
   then st.error "GROQ_API_KEY or TAVILY_API_KEY missing in .env" ;; st.stop
   else skip) ;;
  st.set_page_config "📈 Startup Idea Validator" "centered" ;;
  st.title "📈 Startup Idea Validator" ;;
  st.write "AI-powered evaluation of startup ideas using agentic reasoning and market grounding." ;;
  idea ← st.text_area "💡 Startup Idea Description"
           "Describe your startup idea..." (idea form);
  target_users ← st.text_input "🎯 Target Users"
           "e.g. Students, Small business owners" (target_users form);
  market_info ← st.text_area "🌍 Market Information (optional)"
           "Any assumptions or known market details" (market_info form);
  analyze_btn ← st.button "🚀 Analyze Startup Idea" (analyze_btn form);
  (present ← has_agent_executor;
   if negb present then set_agent_executor create_agent else skip) ;;
  (present ← has_chat_history;
   if negb present then set_chat_history [] else skip) ;;
  main_logic idea target_users market_info analyze_btn.

End script.

(** ** Sessions *)

(** One interaction of the user with the page: the script is run again with
    the environment, the widget values and the outside world of that
    moment. *)
Record Interaction := {
  i_env : Environ;
  i_form : Form;
  i_world : AgentBehaviour
}.

Definition rerun (w : World) (i : Interaction) : outcome () * World :=
  main (i_env i) (i_form i) (i_world i) w.

(** A new browser session: nothing in the session state, nothing shown. *)
Definition fresh : World :=
  {| session_state := {| agent_executor := None; chat_history := None |};
     log := [] |}.

(** The world after the interactions [runs], starting from [w]: the session
    state and what was shown are carried from one run to the next. *)
Definition play (w : World) (runs : list Interaction) : World :=
  foldl (λ w i, snd (rerun w i)) w runs.

(** The world after a sequence of interactions in a new session. *)
Definition session (runs : list Interaction) : World := play fresh runs.

(** The conversation history as a sequence of entries (none before the key
    is set). *)
Definition history_of (w : World) : list message :=
  default [] (chat_history (session_state w)).

(** The agent invocations recorded in a log. *)
Definition is_invoke (e : event) : bool :=
  match e with Invoke _ _ _ => true | _ => false end.

Definition invocations (l : list event) : list event :=
  List.filter is_invoke l.

(** ** The reasoning loop of the evaluation agent

    The loop is run by LangChain's [AgentExecutor], which is not among the
    sources: the script only sets its cap, [max_iterations=3].  The
    definitions of this module follow section 4.3 of the specification. *)

Module AgentLoop.

(** An entry of the scratchpad: which tool was called, with what argument,
    and what it returned. *)
Record ToolRecord := {
  tool_name : string;
  tool_arg : string;
  tool_result : string
}.

(** What the reasoning engine emits when it is asked. *)
Inductive Decision :=
  | FinalAnswer (text : string)
  | ToolCall (name arg : string)
  | Unparseable (raw : string).

(** The reasoning engine, seeded with the system instructions, the
    conversation history and the request text: a decision for every
    scratchpad. *)
Definition Engine : Type := list ToolRecord → Decision.

(** Running a tool by name: a result, or the failure of the provider. *)
Definition ToolRunner : Type := string → string → string + Exception.

(** Modelled from the spec: the states of the reasoning loop, with [Failed]
    for the exception of a tool that the loop lets through. *)
Inductive Phase :=
  | AwaitingDecision
  | ToolCallPending (name arg : string)
  | ToolResultReceived
  | ParseErrorRecovered
  | FinalAnswerProduced (text : string)
  | IterationLimitReached
  | Failed (e : Exception).

Record State := {
  phase : Phase;
  iterations : nat;
  scratchpad : list ToolRecord
}.

Definition initial : State :=
  {| phase := AwaitingDecision; iterations := 0; scratchpad := [] |}.

Definition terminal (s : State) : bool :=
  match phase s with
  | FinalAnswerProduced _ | IterationLimitReached | Failed _ => true
  | _ => false
  end.

Section loop.
Variable cap : nat.
Variable engine : Engine.
Variable run_tool : ToolRunner.

(** Modelled from the spec: the state machine of the reasoning loop
    (section 4.3); the loop itself is run by LangChain's
    [AgentExecutor], which is not among the sources.  One iteration is
    one tool call, or one recovery from output that cannot be parsed. *)
Definition step (s : State) : State :=
  match phase s with
  | AwaitingDecision =>
      if cap <=? iterations s then
        {| phase := IterationLimitReached;
           iterations := iterations s; scratchpad := scratchpad s |}
      else
        match engine (scratchpad s) with
        | FinalAnswer text =>
            {| phase := FinalAnswerProduced text;
               iterations := iterations s; scratchpad := scratchpad s |}
        | ToolCall name arg =>
            {| phase := ToolCallPending name arg;
               iterations := iterations s; scratchpad := scratchpad s |}
        | Unparseable _ =>
            {| phase := ParseErrorRecovered;
               iterations := S (iterations s);
               scratchpad := scratchpad s |}
        end
  | ToolCallPending name arg =>
      match run_tool name arg with
      | inl result =>
          {| phase := ToolResultReceived;
             iterations := S (iterations s);
             scratchpad := scratchpad s ++
               [{| tool_name := name; tool_arg := arg;
                   tool_result := result |}] |}
      | inr e =>
          {| phase := Failed e;
             iterations := iterations s; scratchpad := scratchpad s |}
      end
  | ToolResultReceived | ParseErrorRecovered =>
      {| phase := AwaitingDecision;
         iterations := iterations s; scratchpad := scratchpad s |}
  | FinalAnswerProduced _ | IterationLimitReached | Failed _ => s
  end.

(** The state after [n] transitions. *)
Fixpoint run (n : nat) (s : State) : State :=
  match n with
  | 0 => s
  | S n' => run n' (step s)
  end.

(** Transitions left before a terminal state, at most. *)
Definition budget (s : State) : nat :=
  match phase s with
  | AwaitingDecision => 3 * (cap - iterations s) + 2
  | ToolCallPending _ _ => 3 * (cap - iterations s) + 1
  | ToolResultReceived | ParseErrorRecovered =>
      3 * (cap - iterations s) + 3
  | FinalAnswerProduced _ | IterationLimitReached | Failed _ => 0
  end.

(** The tool calls made never outnumber the iterations, the iterations
    never pass the cap, and a tool call is pending only below it. *)
Definition within_cap (s : State) : Prop :=
  length (scratchpad s) ≤ iterations s ≤ cap
  ∧ match phase s with
    | ToolCallPending _ _ => iterations s < cap
    | _ => True
    end.

(** The tool calls the loop has made when it has come to rest. *)
Definition tool_calls : list ToolRecord :=
  scratchpad (run (budget initial) initial).

End loop.

(** The engine that asks for the search tool whatever it has seen. *)
Definition greedy : Engine := λ _, ToolCall "tavily_search_results_json" "q".

(** The tools of the script, with the outside search provider [search]. *)
Definition script_runner (search : string → string + Exception)
  : ToolRunner := λ name arg,
  if String.eqb name "expand_target_users"
  then inl (expand_target_users arg)
  else search arg.

End AgentLoop.

(** ** Vocabulary of the properties *)

(** The keys of [mapping]. *)
Definition known_keys : list string :=
  ["students"; "business owners"; "developers"].

(** The values of [mapping]. *)
Definition known_expansions : list string :=
  ["College students, High school students, Exam aspirants, Skill learners";
   "Small business owners, Entrepreneurs, Startup founders";
   "Software developers, Programmers, Data scientists"].

(** The capital of an ASCII small letter. *)
Definition capital (c : ascii) : ascii :=
  let n := PyStr.ord c in
  if (97 <=? n) && (n <=? 122) then ascii_of_nat (n - 32) else c.

(** [s] is [t] in some letter casing: at every position the character of
    [t] or its capital. *)
Fixpoint casing_of (t s : string) : bool :=
  match t, s with
  | EmptyString, EmptyString => true
  | String c t', String d s' =>
      (Ascii.eqb d c || Ascii.eqb d (capital c)) && casing_of t' s'
  | _, _ => false
  end.

(** Both credentials are there: the guard of lines 18-20 lets the run go
    on. *)
Definition configured (env : Environ) : bool :=
  PyStr.truthy_opt (GROQ_API_KEY env) && PyStr.truthy_opt (TAVILY_API_KEY env).

(** A required field is empty, or white space only. *)
Definition blank (s : string) : bool := PyStr.all_space s.

(** What the run draws before the main logic: the page and its form. *)
Definition page : list event :=
  [StSetPageConfig "📈 Startup Idea Validator" "centered";
   StTitle "📈 Startup Idea Validator";
   StWrite "AI-powered evaluation of startup ideas using agentic reasoning and market grounding.";
   StTextArea "💡 Startup Idea Description" "Describe your startup idea...";
   StTextInput "🎯 Target Users" "e.g. Students, Small business owners";
   StTextArea "🌍 Market Information (optional)"
     "Any assumptions or known market details";
   StButton "🚀 Analyze Startup Idea"].

(** A widget or any other part of the page the user can act on. *)
Definition is_widget (e : event) : bool :=
  match e with
  | StTextArea _ _ | StTextInput _ _ | StButton _ => true
  | _ => false
  end.

(** A history made of (human, assistant) pairs, in that order. *)
Fixpoint paired (h : list message) : Prop :=
  match h with
  | [] => True
  | (r1, _) :: (r2, _) :: h' => r1 = "human" ∧ r2 = "assistant" ∧ paired h'
  | _ => False
  end.

(** The settings the claims are about, read off an executor. *)
Definition engine_settings (ex : AgentExecutor) : Q * nat :=
  (temperature (agent_llm (agent ex)), max_tokens (agent_llm (agent ex))).

(** The executor has the settings of the script: the engine at 0.6 and 1024
    tokens, and a search tool, every one of which gives at most 5 results
    with an answer. *)
Definition as_configured (ex : AgentExecutor) : Prop :=
  engine_settings ex = (Qmake 6 10, 1024)
  ∧ (∃ cfg, SearchTool cfg ∈ tools ex)
  ∧ (∀ cfg, SearchTool cfg ∈ tools ex ∨ SearchTool cfg ∈ agent_tools (agent ex) →
       max_results cfg = 5 ∧ include_answer cfg = true).

(** The world when the main logic starts, in a configured run from [w]: the
    page is drawn and both keys of the session state are set, each kept as
    it was when it was there. *)
Definition ready (env : Environ) (w : World) : World :=
  {| session_state :=
       {| agent_executor :=
            Some (default (create_agent env) (agent_executor (session_state w)));
          chat_history := Some (history_of w) |};
     log := log w ++ page |}.

(** The blocks the result is shown in: one for every line of the output that
    is not blank. *)
Definition rendering (output_text : string) : list event :=
  StMarkdown <$>
    List.filter (λ line, PyStr.truthy (PyStr.strip line))
      (PyStr.split PyStr.LF output_text).

(** The text of an answer: its ["output"] entry, else the answer as text. *)
Definition output_of (response : Response) : string :=
  dict_get (resp_items response) "output" (resp_str response).

(** The executor a run from [w] works with: the one of the session state,
    or a new one when the key is not set yet. *)
Definition executor_of (env : Environ) (w : World) : AgentExecutor :=
  default (create_agent env) (agent_executor (session_state w)).

(** The message of the error shown when an invocation raises [e]. *)
Definition agent_error (e : Exception) : string :=
  "❌ Error running agent: " +:+ exc_str e.

(** An interaction in which one of the two credentials is not set. *)
Definition unset (i : Interaction) : Prop :=
  GROQ_API_KEY (i_env i) = None ∨ TAVILY_API_KEY (i_env i) = None.

(** The configuration error of lines 18-20. *)
Definition configuration_error : event :=
  StError "GROQ_API_KEY or TAVILY_API_KEY missing in .env".

(** What a run can add to the history: nothing, or one (human, assistant)
    pair. *)
Definition pair_or_nothing (added : list message) : Prop :=
  added = [] ∨ ∃ input output,
    added = [("human", input); ("assistant", output)].

(** What every session keeps true: the executor of the session state and
    those of the invocations so far have the settings of the script, and the
    history is made of pairs. *)
Definition sound (w : World) : Prop :=
  (∀ ex, agent_executor (session_state w) = Some ex → as_configured ex)
  ∧ (∀ ex input h, Invoke ex input h ∈ log w → as_configured ex)
  ∧ paired (history_of w).

(** The request text made from a form (lines 129-133). *)
Definition request (form : Form) : string :=
  user_input_of (idea form) (target_users form) (market_info form).

(** The button was pressed with both required fields filled in. *)
Definition submits (form : Form) : bool :=
  analyze_btn form && negb (blank (idea form))
  && negb (blank (target_users form)).

(** A variable the guard of lines 18-20 takes as missing: not set, or set
    to the empty text. *)
Definition missing (v : option string) : Prop := v = None ∨ v = Some "".

(** The character [c] occurs in [s]. *)
Fixpoint occurs (c : ascii) (s : string) : bool :=
  match s with
  | EmptyString => false
  | String d s' => Ascii.eqb d c || occurs c s'
  end.

(** The (human, assistant) pair of an exchange. *)
Definition exchange (input output : string) : list message :=
  [("human", input); ("assistant", output)].

(** ** Sample data *)

Module Sample.

Definition env : Environ :=
  {| GROQ_API_KEY := Some "gsk_demo"; TAVILY_API_KEY := Some "tvly_demo" |}.

Definition env_without_search : Environ :=
  {| GROQ_API_KEY := Some "gsk_demo"; TAVILY_API_KEY := None |}.

Definition submission : Form :=
  {| idea := "A marketplace for peer tutoring";
     target_users := "Students";
     market_info := "";
     analyze_btn := true |}.

Definition blank_submission : Form :=
  {| idea := "   ";
     target_users := "Students";
     market_info := "";
     analyze_btn := true |}.

Definition answer : Response :=
  {| resp_items := {[ "output" := "Strengths: clear demand

Viability score: 7/10" ]};
     resp_str := "{'output': ...}" |}.

Definition answering : AgentBehaviour := λ _ _ _, inl answer.

Definition rate_limited : Exception :=
  {| exc_class := "RateLimitError"; exc_str := "rate limit reached" |}.

Definition failing : AgentBehaviour := λ _ _ _, inr rate_limited.

(** The user submits while the search key is missing, twice. *)
Definition unconfigured_runs : list Interaction :=
  [{| i_env := env_without_search; i_form := submission;
      i_world := answering |};
   {| i_env := env_without_search; i_form := submission;
      i_world := answering |}].

(** The user submits a valid request in a configured session. *)
Definition one_submission : list Interaction :=
  [{| i_env := env; i_form := submission; i_world := answering |}].

(** The language-model key is set, but to the empty text. *)
Definition env_with_empty_key : Environ :=
  {| GROQ_API_KEY := Some ""; TAVILY_API_KEY := Some "tvly_demo" |}.

(** The keys were changed after the session had started. *)
Definition env_rotated : Environ :=
  {| GROQ_API_KEY := Some "gsk_new"; TAVILY_API_KEY := Some "tvly_new" |}.

(** A second request, with market information given. *)
Definition follow_up : Form :=
  {| idea := "The same, for music lessons";
     target_users := "  Parents ";
     market_info := "Growing demand for online lessons";
     analyze_btn := true |}.

(** An answer that has no ["output"] entry. *)
Definition odd_answer : Response :=
  {| resp_items := {[ "result" := "n/a" ]};
     resp_str := "{'result': 'n/a'}" |}.

Definition answering_oddly : AgentBehaviour := λ _ _ _, inl odd_answer.

(** A first submission, then a second one after the keys were changed. *)
Definition two_submissions : list Interaction :=
  [{| i_env := env; i_form := submission; i_world := answering |};
   {| i_env := env_rotated; i_form := follow_up; i_world := answering |}].

End Sample.

(** * Properties *)

(** ** Text *)

Section text.

Lemma lstrip_blank s : PyStr.all_space s = true → PyStr.lstrip s = "".
Proof.
  induction s as [|c s IH]; simpl; [done|].
  intros [Hc Hs]%andb_prop. rewrite Hc. auto.
Qed.

Lemma rstrip_blank s : PyStr.rstrip s = "" ↔ PyStr.all_space s = true.
Proof.
  induction s as [|c s IH]; simpl; [done|].
  destruct (PyStr.rstrip s) eqn:Hr.
  - destruct (PyStr.isspace c); simpl; [|done].
    split; [intros _; by apply IH|done].
  - split; [done|]. intros [_ Hs]%andb_prop. by apply IH in Hs.
Qed.

Lemma lstrip_all_space s :
  PyStr.all_space (PyStr.lstrip s) = PyStr.all_space s.
Proof.
  induction s as [|c s IH]; simpl; [done|].
  destruct (PyStr.isspace c) eqn:Hc; simpl; by rewrite ?Hc.
Qed.

(** Stripping leaves something exactly when the text is not blank. *)
Lemma strip_blank s : PyStr.truthy (PyStr.strip s) = negb (blank s).
Proof.
  unfold blank, PyStr.strip. rewrite <- (lstrip_all_space s).
  destruct (PyStr.rstrip (PyStr.lstrip s)) eqn:Hr; simpl.
  - apply rstrip_blank in Hr. by rewrite Hr.
  - destruct (PyStr.all_space (PyStr.lstrip s)) eqn:Hs; [|done].
    apply rstrip_blank in Hs. congruence.
Qed.

Lemma lower_char_capital c :
  PyStr.lower_char (capital c) = PyStr.lower_char c.
Proof. by destruct c as [[] [] [] [] [] [] [] []]. Qed.

Lemma lower_casing t s :
  casing_of t s = true → PyStr.lower s = PyStr.lower t.
Proof.
  revert s. induction t as [|c t IH]; intros [|d s]; simpl; try done.
  intros [Hc Hs]%andb_prop. f_equal; [|by apply IH].
  apply orb_prop in Hc as [->%Ascii.eqb_eq| ->%Ascii.eqb_eq];
    [done|apply lower_char_capital].
Qed.

End text.

(** ** The user-segment expander *)

Lemma mapping_keys k : is_Some (mapping !! k) ↔ k ∈ known_keys.
Proof.
  unfold mapping, known_keys. rewrite !lookup_insert_is_Some, lookup_empty.
  rewrite !elem_of_cons, elem_of_nil. split.
  - intros [?|[_ [?|[_ [?|[_ []%is_Some_None]]]]]]; auto.
  - intros [->|[->|[->|[]]]]; [by left| |].
    + right; split; [done|by left].
    + right; split; [done|]. right; split; [done|by left].
Qed.

Lemma mapping_values k v : mapping !! k = Some v → v ∈ known_expansions.
Proof.
  unfold mapping, known_expansions. intros H.
  apply lookup_insert_Some in H as [[_ <-]|[_ H]]; [set_solver|].
  apply lookup_insert_Some in H as [[_ <-]|[_ H]]; [set_solver|].
  apply lookup_insert_Some in H as [[_ <-]|[_ H]]; [set_solver|].
  by rewrite lookup_empty in H.
Qed.

(** C5: the expander gives the fixed expansion for "students" in any letter
    casing, and for a label whose lower-cased form is not a known key the
    fall-back sentence with the label as it was given inside it. *)
Theorem expand_target_users_answers :
  (∀ label, casing_of "students" label = true →
     expand_target_users label
     = "College students, High school students, Exam aspirants, Skill learners")
  ∧ (∀ label, PyStr.lower label ∉ known_keys →
       expand_target_users label
       = "Expanded users for '" +:+ label
           +:+ "' could include a broader audience."
       ∧ PyStr.contains label (expand_target_users label)).
Proof.
  split.
  - intros label Hl. unfold expand_target_users.
    by rewrite (lower_casing _ _ Hl).
  - intros label Hk.
    assert (expand_target_users label = fallback label) as ->.
    { unfold expand_target_users, dict_get.
      destruct (mapping !! PyStr.lower label) eqn:Hm; [|done].
      destruct Hk. apply mapping_keys. by rewrite Hm. }
    split; [reflexivity|]. by exists "Expanded users for '", "' could include a broader audience.".
Qed.

Lemma expand_target_users_answers_witness :
  expand_target_users "StuDENTS"
  = "College students, High school students, Exam aspirants, Skill learners"
  ∧ expand_target_users "Farmers"
    = "Expanded users for 'Farmers' could include a broader audience.".
Proof.
  split.
  - apply (proj1 expand_target_users_answers). reflexivity.
  - apply (proj2 expand_target_users_answers "Farmers").
    apply (bool_decide_unpack _). vm_compute. exact I.
Defined.

(** C6: the expander answers every text: with one of the three fixed
    expansions when the lower-cased label is a known key, with the fall-back
    sentence otherwise; nothing else can happen. *)
Theorem expand_target_users_total (user_group : string) :
  ∃ answer, expand_target_users user_group = answer
    ∧ ((PyStr.lower user_group ∈ known_keys ∧ answer ∈ known_expansions)
       ∨ ((PyStr.lower user_group ∉ known_keys) ∧ answer = fallback user_group)).
Proof.
  eexists; split; [done|]. unfold expand_target_users, dict_get.
  destruct (mapping !! PyStr.lower user_group) as [v|] eqn:Hm; simpl.
  - left. split; [apply mapping_keys; by rewrite Hm|by eapply mapping_values].
  - right. split; [|done]. intros Hk%mapping_keys. rewrite Hm in Hk.
    by apply is_Some_None in Hk.
Qed.

(** ** One run of the script *)

Section run.
Variable env : Environ.
Variable form : Form.
Variable world : AgentBehaviour.

Lemma for_each_markdown (lines : list string) (w : World) :
  for_each lines (λ line,
    if PyStr.truthy (PyStr.strip line) then st.markdown line else skip) w
  = (Done (),
     {| session_state := session_state w;
        log := log w ++ (StMarkdown <$>
          List.filter (λ line, PyStr.truthy (PyStr.strip line)) lines) |}).
Proof.
  revert w. induction lines as [|l ls IH]; intros [ss lg]; simpl.
  - by rewrite app_nil_r.
  - unfold mbind, Script_bind.
    destruct (PyStr.truthy (PyStr.strip l)); simpl.
    + rewrite IH. simpl. by rewrite <- app_assoc.
    + by rewrite IH.
Qed.

(** The invocation returns: the pair is appended and the result shown. *)
Lemma evaluate_returned input ex h lg response :
  world ex input h = inl response →
  evaluate world input
    {| session_state :=
         {| agent_executor := Some ex; chat_history := Some h |};
       log := lg |}
  = (Done (),
     {| session_state :=
          {| agent_executor := Some ex;
             chat_history :=
               Some (h ++ [("human", input);
                           ("assistant", output_of response)]) |};
        log := lg ++ [Invoke ex input h;
                      StSubheader "📊 Startup Evaluation Result"]
                  ++ rendering (output_of response) |}).
Proof.
  intros Hw. unfold evaluate, try_except, invoke, chat_history_append.
  unfold mbind, Script_bind; simpl. rewrite Hw. simpl.
  rewrite for_each_markdown. simpl.
  unfold rendering, output_of. by rewrite <- !app_assoc.
Qed.

(** The invocation raises: the handler shows the error, nothing else. *)
Lemma evaluate_raised input ex h lg e :
  world ex input h = inr e →
  evaluate world input
    {| session_state :=
         {| agent_executor := Some ex; chat_history := Some h |};
       log := lg |}
  = (Done (),
     {| session_state :=
          {| agent_executor := Some ex; chat_history := Some h |};
        log := lg ++ [Invoke ex input h; StError (agent_error e)] |}).
Proof.
  intros Hw. unfold evaluate, try_except, invoke.
  unfold mbind, Script_bind; simpl. rewrite Hw. simpl.
  unfold st.error, emit. simpl. by rewrite <- !app_assoc.
Qed.

(** Past the guard of the credentials, the run reaches the main logic in
    the world [ready]. *)
Lemma main_configured w :
  configured env = true →
  main env form world w
  = main_logic world (idea form) (target_users form) (market_info form)
      (analyze_btn form) (ready env w).
Proof.
  intros [Hg Ht]%andb_prop. unfold main, groq_api_key, tavily_api_key.
  rewrite Hg, Ht. destruct w as [[ex h] lg].
  unfold ready, history_of, page.
  destruct ex, h; simpl; unfold mbind, Script_bind; simpl;
    by rewrite <- !app_assoc.
Qed.

Lemma main_unconfigured w :
  configured env = false →
  main env form world w
  = (Halted,
     {| session_state := session_state w;
        log := log w
          ++ [StError "GROQ_API_KEY or TAVILY_API_KEY missing in .env"] |}).
Proof.
  intros Hc. unfold main, groq_api_key, tavily_api_key.
  unfold configured in Hc. by rewrite <- negb_andb, Hc.
Qed.

(** A submission with both required fields filled in: the request is
    evaluated, after the spinner. *)
Lemma main_logic_valid w :
  blank (idea form) = false → blank (target_users form) = false →
  main_logic world (idea form) (target_users form) (market_info form) true w
  = evaluate world
      (user_input_of (idea form) (target_users form) (market_info form))
      {| session_state := session_state w;
         log := log w ++ [StSpinner "🔍 Evaluating your startup idea..."] |}.
Proof.
  intros Hi Ht. unfold main_logic. rewrite !strip_blank, Hi, Ht. done.
Qed.

Lemma main_logic_blank w :
  blank (idea form) = true ∨ blank (target_users form) = true →
  main_logic world (idea form) (target_users form) (market_info form) true w
  = (Done (),
     {| session_state := session_state w;
        log := log w
          ++ [StWarning "⚠️ Please fill in both idea and target users fields."] |}).
Proof.
  intros Hb. unfold main_logic. rewrite !strip_blank.
  by destruct Hb as [-> | ->]; rewrite ?orb_true_r.
Qed.

End run.

Lemma invocations_app l l' :
  invocations (l ++ l') = invocations l ++ invocations l'.
Proof. apply List.filter_app. Qed.

Lemma invocations_rendering text : invocations (rendering text) = [].
Proof.
  unfold rendering.
  induction (List.filter _ (PyStr.split _ _)) as [|l ls IH]; [done|].
  by rewrite fmap_cons.
Qed.

Lemma unset_unconfigured env :
  GROQ_API_KEY env = None ∨ TAVILY_API_KEY env = None → configured env = false.
Proof.
  unfold configured. intros [-> | ->]; [done|]. by rewrite andb_false_r.
Qed.

(** C1: a submission whose idea or target users are empty or white space
    only is answered by the warning alone: the run ends normally, adds the
    page and the warning to what is shown and no agent invocation, and the
    conversation history is what it was. *)
Theorem blank_submission_warns env form world w :
  configured env = true →
  analyze_btn form = true →
  blank (idea form) = true ∨ blank (target_users form) = true →
  ∃ w', main env form world w = (Done (), w')
    ∧ log w' = log w ++ page
        ++ [StWarning "⚠️ Please fill in both idea and target users fields."]
    ∧ invocations (log w') = invocations (log w)
    ∧ history_of w' = history_of w.
Proof.
  intros Hc Hb Hblank. rewrite main_configured, Hb by done.
  rewrite main_logic_blank by done. eexists; split; [done|]. simpl.
  split; [by rewrite <- app_assoc|]. split; [|done].
  rewrite !invocations_app. simpl. by rewrite !app_nil_r.
Qed.

Lemma blank_submission_warns_witness :
  ∃ w', main Sample.env Sample.blank_submission Sample.answering fresh
        = (Done (), w')
    ∧ log w' = log fresh ++ page
        ++ [StWarning "⚠️ Please fill in both idea and target users fields."]
    ∧ invocations (log w') = invocations (log fresh)
    ∧ history_of w' = history_of fresh.
Proof.
  apply (blank_submission_warns Sample.env Sample.blank_submission
           Sample.answering fresh);
    [reflexivity | reflexivity | left; reflexivity].
Defined.

(** The world in which a valid submission is evaluated. *)
Lemma valid_submission_evaluated env form world w :
  configured env = true →
  analyze_btn form = true →
  blank (idea form) = false → blank (target_users form) = false →
  main env form world w
  = evaluate world
      (user_input_of (idea form) (target_users form) (market_info form))
      {| session_state :=
           {| agent_executor := Some (executor_of env w);
              chat_history := Some (history_of w) |};
         log := log w ++ page
                  ++ [StSpinner "🔍 Evaluating your startup idea..."] |}.
Proof.
  intros Hc Hb Hi Ht. rewrite main_configured, Hb by done.
  rewrite main_logic_valid by done. simpl. by rewrite <- app_assoc.
Qed.

(** C2: when the invocation started by the Analyze button returns, the
    history is the one before followed by exactly two entries: the human
    entry with the request text, then the assistant entry with the output,
    which is the ["output"] entry of the answer when it has one and the
    answer as text when it has none. *)
Theorem successful_invocation_appends env form world w response :
  configured env = true →
  analyze_btn form = true →
  blank (idea form) = false → blank (target_users form) = false →
  world (executor_of env w)
    (user_input_of (idea form) (target_users form) (market_info form))
    (history_of w) = inl response →
  ∃ w', main env form world w = (Done (), w')
    ∧ history_of w'
      = history_of w
          ++ [("human",
               user_input_of (idea form) (target_users form) (market_info form));
              ("assistant",
               match resp_items response !! "output" with
               | Some output_text => output_text
               | None => resp_str response
               end)]
    ∧ length (history_of w') = length (history_of w) + 2.
Proof.
  intros Hc Hb Hi Ht Hw. rewrite valid_submission_evaluated by done.
  rewrite (evaluate_returned _ _ _ _ _ _ Hw).
  eexists; split; [done|]. unfold history_of. simpl.
  split; [|by rewrite length_app].
  unfold output_of, dict_get.
  by destruct (resp_items response !! "output").
Qed.

Lemma successful_invocation_appends_witness :
  ∃ w', main Sample.env Sample.submission Sample.answering fresh = (Done (), w')
    ∧ history_of w'
      = history_of fresh
          ++ [("human", "
Startup Idea: A marketplace for peer tutoring
Target Users: Students
Market Info: None provided
");
              ("assistant", "Strengths: clear demand

Viability score: 7/10")]
    ∧ length (history_of w') = length (history_of fresh) + 2.
Proof.
  apply (successful_invocation_appends Sample.env Sample.submission
           Sample.answering fresh Sample.answer); reflexivity.
Defined.

(** C3: when the invocation raises an exception, the run still ends
    normally, the history is what it was, and the last thing shown is the
    error message with the text of the exception. *)
Theorem failed_invocation_keeps_history env form world w e :
  configured env = true →
  analyze_btn form = true →
  blank (idea form) = false → blank (target_users form) = false →
  world (executor_of env w)
    (user_input_of (idea form) (target_users form) (market_info form))
    (history_of w) = inr e →
  ∃ w', main env form world w = (Done (), w')
    ∧ history_of w' = history_of w
    ∧ ∃ shown, log w' = log w ++ shown ++ [StError (agent_error e)].
Proof.
  intros Hc Hb Hi Ht Hw. rewrite valid_submission_evaluated by done.
  rewrite (evaluate_raised _ _ _ _ _ _ Hw).
  eexists; split; [done|]. split; [done|]. simpl.
  eexists (page ++ [_; _]). by rewrite <- !app_assoc.
Qed.

Lemma failed_invocation_keeps_history_witness :
  ∃ w', main Sample.env Sample.submission Sample.failing fresh = (Done (), w')
    ∧ history_of w' = history_of fresh
    ∧ ∃ shown, log w' = log fresh ++ shown
                 ++ [StError (agent_error Sample.rate_limited)].
Proof.
  apply (failed_invocation_keeps_history Sample.env Sample.submission
           Sample.failing fresh Sample.rate_limited); reflexivity.
Defined.

(** C9: in a valid submission the agent is invoked once, and the text it is
    given is the template with the idea, the target users and the market
    information on three lines, the market information being replaced by
    [None provided] when it is empty. *)
Theorem request_text env form world w :
  configured env = true →
  analyze_btn form = true →
  blank (idea form) = false → blank (target_users form) = false →
  invocations (log (snd (main env form world w)))
  = invocations (log w)
      ++ [Invoke (executor_of env w)
            ("
Startup Idea: " +:+ idea form +:+ "
Target Users: " +:+ target_users form +:+ "
Market Info: " +:+ (if decide (market_info form = "")
                    then "None provided" else market_info form) +:+ "
")
            (history_of w)].
Proof.
  intros Hc Hb Hi Ht. rewrite valid_submission_evaluated by done.
  assert (user_input_of (idea form) (target_users form) (market_info form)
          = "
Startup Idea: " +:+ idea form +:+ "
Target Users: " +:+ target_users form +:+ "
Market Info: " +:+ (if decide (market_info form = "")
                    then "None provided" else market_info form) +:+ "
") as <-.
  { unfold user_input_of, PyStr.or_else.
    by destruct (market_info form); case_decide. }
  set (input := user_input_of _ _ _).
  destruct (world (executor_of env w) input (history_of w)) as [r|e] eqn:Hw.
  - rewrite (evaluate_returned _ _ _ _ _ _ Hw). cbn [snd log].
    rewrite !invocations_app, invocations_rendering.
    simpl. by rewrite !app_nil_r.
  - rewrite (evaluate_raised _ _ _ _ _ _ Hw). simpl.
    rewrite !invocations_app. simpl. by rewrite !app_nil_r.
Qed.

Lemma request_text_witness :
  invocations
    (log (snd (main Sample.env Sample.submission Sample.answering fresh)))
  = invocations (log fresh)
      ++ [Invoke (executor_of Sample.env fresh)
            ("
Startup Idea: A marketplace for peer tutoring
Target Users: Students
Market Info: None provided
")
            (history_of fresh)].
Proof.
  apply (request_text Sample.env Sample.submission Sample.answering fresh);
    reflexivity.
Defined.

(** ** Sessions *)

Lemma create_agent_as_configured env : as_configured (create_agent env).
Proof.
  split; [reflexivity|]. split.
  - exists (tavily_tool env). simpl. unfold script_tools. set_solver.
  - intros cfg. simpl. unfold script_tools.
    rewrite !elem_of_cons, !elem_of_nil.
    intros [[H|[H|[]]]|[H|[H|[]]]]; by inversion H.
Qed.

Lemma invoke_not_page ex input h : Invoke ex input h ∉ page.
Proof.
  unfold page. rewrite !elem_of_cons, elem_of_nil.
  intros H. repeat (destruct H as [H|H]; [discriminate H|]). done.
Qed.

Lemma invoke_not_rendering ex input h text :
  Invoke ex input h ∉ rendering text.
Proof. unfold rendering. intros (l & Hl & _)%list_elem_of_fmap. discriminate. Qed.

(** What one run does to the world, whatever the interaction. *)
Lemma rerun_effect w i :
  let w' := snd (rerun w i) in
  ∃ added shown,
    history_of w' = history_of w ++ added
    ∧ pair_or_nothing added
    ∧ log w' = log w ++ shown
    ∧ (∀ ex input h, Invoke ex input h ∈ shown → ex = executor_of (i_env i) w)
    ∧ (agent_executor (session_state w') = agent_executor (session_state w)
       ∨ agent_executor (session_state w')
         = Some (executor_of (i_env i) w)).
Proof.
  destruct i as [env form world]. unfold rerun. simpl.
  destruct (configured env) eqn:Hc.
  2:{ rewrite main_unconfigured by done. simpl.
      exists [], [configuration_error]. rewrite app_nil_r.
      repeat split; [by left| |by left].
      intros ex input h [H|[]%elem_of_nil]%elem_of_cons. discriminate H. }
  destruct (analyze_btn form) eqn:Hb.
  2:{ rewrite main_configured, Hb by done. simpl.
      exists [], page. rewrite app_nil_r.
      repeat split; [by left| |by right].
      intros ex input h H. by apply invoke_not_page in H. }
  destruct (blank (idea form) || blank (target_users form)) eqn:Hblank.
  { apply orb_prop in Hblank.
    rewrite main_configured, Hb, main_logic_blank by done. simpl.
    exists [], (page ++ [StWarning
      "⚠️ Please fill in both idea and target users fields."]).
    rewrite app_nil_r, <- app_assoc.
    repeat split; [by left| |by right].
    intros ex input h [H|H]%elem_of_app; [by apply invoke_not_page in H|].
    apply elem_of_cons in H as [H|[]%elem_of_nil]. discriminate H. }
  apply orb_false_elim in Hblank as [Hi Ht].
  rewrite valid_submission_evaluated by done.
  set (input := user_input_of _ _ _).
  destruct (world (executor_of env w) input (history_of w)) as [r|e] eqn:Hw.
  - rewrite (evaluate_returned _ _ _ _ _ _ Hw). cbn [snd log session_state].
    eexists [_; _], ((page ++ [_]) ++ [_; _] ++ rendering _).
    unfold history_of at 1. cbn [session_state chat_history default].
    repeat split; [right; by eexists _, _|by rewrite <- !app_assoc| |by right].
    intros ex' input' h'. rewrite !elem_of_app, !elem_of_cons, !elem_of_nil.
    intros [[H|[H|[]]]|[[H|[H|[]]]|H]]; try discriminate H.
    + by apply invoke_not_page in H.
    + by inversion H.
    + by apply invoke_not_rendering in H.
  - rewrite (evaluate_raised _ _ _ _ _ _ Hw). cbn [snd log session_state].
    exists [], ((page ++ [StSpinner "🔍 Evaluating your startup idea..."])
                ++ [Invoke (executor_of env w) input (history_of w);
                    StError (agent_error e)]).
    unfold history_of at 1. cbn [session_state chat_history default].
    rewrite app_nil_r.
    repeat split; [by left|by rewrite <- !app_assoc| |by right].
    intros ex' input' h'. rewrite !elem_of_app, !elem_of_cons, !elem_of_nil.
    intros [[H|[H|[]]]|[H|[H|[]]]]; try discriminate H.
    + by apply invoke_not_page in H.
    + by inversion H.
Qed.

Section pairs.

Lemma paired_snoc h input output :
  paired h → paired (h ++ [("human", input); ("assistant", output)]).
Proof.
  remember (length h) as n eqn:Hn. revert h Hn.
  induction n as [n IH] using lt_wf_ind. intros h Hn Hp.
  destruct h as [|[r1 t1] [|[r2 t2] h']]; simpl in *; try done.
  destruct Hp as (-> & -> & Hp). repeat split.
  apply (IH (length h')); [lia|done|done].
Qed.

Lemma paired_even h : paired h → Nat.Even (length h).
Proof.
  remember (length h) as n eqn:Hn. revert h Hn.
  induction n as [n IH] using lt_wf_ind. intros h Hn Hp.
  destruct h as [|[r1 t1] [|[r2 t2] h']]; simpl in *; try done.
  - subst. by exists 0.
  - destruct Hp as (_ & _ & Hp).
    destruct (IH (length h') ltac:(lia) h' eq_refl Hp) as [k Hk].
    exists (S k). lia.
Qed.

Lemma paired_add h added :
  paired h → pair_or_nothing added → paired (h ++ added).
Proof.
  intros Hp [->|(input & output & ->)]; [by rewrite app_nil_r|].
  by apply paired_snoc.
Qed.

End pairs.

Lemma rerun_sound w i : sound w → sound (snd (rerun w i)).
Proof.
  intros (Hex & Hlog & Hp).
  assert (as_configured (executor_of (i_env i) w)) as Hnew.
  { unfold executor_of.
    destruct (agent_executor (session_state w)) as [ex|] eqn:He; simpl;
      [by apply Hex|apply create_agent_as_configured]. }
  destruct (rerun_effect w i) as (added & shown & Hh & Ha & Hl & Hinv & Hs).
  split; [|split].
  - intros ex He. destruct Hs as [Hs|Hs]; rewrite Hs in He;
      [by apply Hex|by injection He as <-].
  - intros ex input h. rewrite Hl, elem_of_app.
    intros [H|H]; [by eapply Hlog|by rewrite (Hinv _ _ _ H)].
  - rewrite Hh. by apply paired_add.
Qed.

Lemma fresh_sound : sound fresh.
Proof.
  split; [|split]; [done| |done].
  intros ex input h H. by apply elem_of_nil in H.
Qed.

Lemma play_snoc w runs i :
  play w (runs ++ [i]) = snd (rerun (play w runs) i).
Proof. unfold play. by rewrite foldl_snoc. Qed.

Lemma session_sound runs : sound (session runs).
Proof.
  unfold session. induction runs as [|i runs IH] using rev_ind.
  - apply fresh_sound.
  - rewrite play_snoc. by apply rerun_sound.
Qed.

Lemma play_unset w runs :
  Forall unset runs →
  session_state (play w runs) = session_state w
  ∧ log (play w runs)
    = log w ++ replicate (length runs) configuration_error.
Proof.
  revert w. induction runs as [|i runs IH]; intros w Hu.
  - by rewrite app_nil_r.
  - apply Forall_cons in Hu as [Hi Hu]. unfold play. simpl.
    fold (play (snd (rerun w i)) runs).
    destruct (IH (snd (rerun w i)) Hu) as [-> ->].
    unfold rerun. rewrite main_unconfigured by by apply unset_unconfigured.
    simpl. by rewrite <- app_assoc.
Qed.

(** C7: a run in which one of the two credentials is not set shows the
    configuration error and stops there: no widget is drawn, the session
    state is not touched; and as long as that is so, run after run, the log
    holds no widget and no agent invocation. *)
Theorem missing_credential_halts :
  (∀ env form world w,
     GROQ_API_KEY env = None ∨ TAVILY_API_KEY env = None →
     main env form world w
     = (Halted,
        {| session_state := session_state w;
           log := log w
             ++ [StError "GROQ_API_KEY or TAVILY_API_KEY missing in .env"] |}))
  ∧ (∀ runs, Forall unset runs →
       Forall (λ e, is_invoke e = false ∧ is_widget e = false)
         (log (session runs))).
Proof.
  split.
  - intros env form world w Hu.
    by apply main_unconfigured, unset_unconfigured.
  - intros runs Hu. unfold session.
    destruct (play_unset fresh runs Hu) as [_ ->]. simpl.
    induction (length runs) as [|n IH]; simpl; by constructor.
Qed.

Lemma missing_credential_halts_witness :
  main Sample.env_without_search Sample.submission Sample.answering fresh
  = (Halted,
     {| session_state := session_state fresh;
        log := log fresh
          ++ [StError "GROQ_API_KEY or TAVILY_API_KEY missing in .env"] |})
  ∧ Forall (λ e, is_invoke e = false ∧ is_widget e = false)
      (log (session Sample.unconfigured_runs)).
Proof.
  split.
  - apply (proj1 missing_credential_halts). right. reflexivity.
  - apply (proj2 missing_credential_halts Sample.unconfigured_runs).
    repeat constructor; right; reflexivity.
Defined.

(** C8: the executor the script builds has the engine at temperature 0.6
    with at most 1024 tokens and a search tool giving at most 5 results with
    an answer; and in every session every invocation goes to an executor
    with these settings. *)
Theorem settings_fixed :
  (∀ env,
     let ex := create_agent env in
     temperature (agent_llm (agent ex)) = Qmake 6 10
     ∧ max_tokens (agent_llm (agent ex)) = 1024
     ∧ tools ex
       = [SearchTool {| tavily_key := TAVILY_API_KEY env;
                        max_results := 5; include_answer := true |};
          FunctionTool "expand_target_users" expand_target_users]
     ∧ agent_tools (agent ex) = tools ex)
  ∧ (∀ runs ex input h,
       Invoke ex input h ∈ log (session runs) → as_configured ex).
Proof.
  split; [done|].
  intros runs ex input h H.
  destruct (session_sound runs) as (_ & Hlog & _). by eapply Hlog.
Qed.

Lemma settings_fixed_witness :
  as_configured (executor_of Sample.env fresh).
Proof.
  apply (proj2 settings_fixed Sample.one_submission
           (executor_of Sample.env fresh)
           (user_input_of (idea Sample.submission)
              (target_users Sample.submission)
              (market_info Sample.submission))
           []).
  unfold session, play, Sample.one_submission, rerun. cbn [foldl].
  cbn [i_env i_form i_world].
  rewrite valid_submission_evaluated by reflexivity.
  rewrite (evaluate_returned _ _ _ _ _ Sample.answer eq_refl).
  cbn [snd log]. rewrite !elem_of_app. right. left. constructor.
Defined.

(** C10: in every session the history is made of (human, assistant) pairs,
    human first, so of even length; and one more interaction leaves the
    entries there in place and adds nothing or one such pair after them. *)
Theorem history_grows_in_pairs (runs : list Interaction) :
  paired (history_of (session runs))
  ∧ Nat.Even (length (history_of (session runs)))
  ∧ ∀ i, ∃ added,
      history_of (session (runs ++ [i])) = history_of (session runs) ++ added
      ∧ (added = [] ∨ ∃ input output,
           added = [("human", input); ("assistant", output)]).
Proof.
  destruct (session_sound runs) as (_ & _ & Hp).
  split; [done|]. split; [by apply paired_even|].
  intros i. unfold session. rewrite play_snoc.
  destruct (rerun_effect (play fresh runs) i) as (added & _ & Hh & Ha & _).
  by exists added.
Qed.

(** ** The reasoning loop *)

Module AgentLoopFacts.
Import AgentLoop.

Section facts.
Variable cap : nat.
Variable engine : Engine.
Variable run_tool : ToolRunner.

Lemma initial_within_cap : within_cap cap initial.
Proof. unfold within_cap; simpl. lia. Qed.

Lemma step_within_cap s :
  within_cap cap s → within_cap cap (step cap engine run_tool s).
Proof.
  destruct s as [ph it sp]. unfold within_cap, step; simpl.
  intros [Hb Hp]. destruct ph; simpl; try done.
  - destruct (Nat.leb_spec cap it); simpl; [done|].
    destruct (engine sp); simpl; split; try done; lia.
  - destruct (run_tool name arg); simpl; [|done].
    rewrite length_app; simpl. split; [lia|done].
Qed.

Lemma run_within_cap n s :
  within_cap cap s → within_cap cap (run cap engine run_tool n s).
Proof.
  revert s. induction n as [|n IH]; intros s Hs; simpl; [done|].
  by apply IH, step_within_cap.
Qed.

(** Every transition from a state that is not terminal uses up some of
    the budget. *)
Lemma step_budget s :
  within_cap cap s → terminal s = false →
  budget cap (step cap engine run_tool s) < budget cap s.
Proof.
  destruct s as [ph it sp]. unfold within_cap, terminal, budget, step.
  simpl. intros [Hb Hp] Ht. destruct ph; simpl in *; try done; try lia.
  - destruct (Nat.leb_spec cap it); simpl; [lia|].
    destruct (engine sp); simpl; lia.
  - destruct (run_tool name arg); simpl; lia.
Qed.

Lemma step_terminal s : terminal s = true → step cap engine run_tool s = s.
Proof.
  destruct s as [ph it sp]. unfold terminal, step; simpl.
  by destruct ph.
Qed.

Lemma run_terminal n s : terminal s = true → run cap engine run_tool n s = s.
Proof.
  intros Ht. induction n as [|n IH]; simpl; [done|].
  by rewrite step_terminal.
Qed.

(** With as many transitions as its budget, a state has come to rest. *)
Lemma run_rests n s :
  within_cap cap s → budget cap s ≤ n →
  terminal (run cap engine run_tool n s) = true.
Proof.
  revert s. induction n as [|n IH]; intros s Hs Hn; simpl.
  - destruct s as [[] it sp]; unfold budget in Hn; simpl in *;
      try done; lia.
  - destruct (terminal s) eqn:Ht.
    + by rewrite step_terminal, run_terminal.
    + apply IH; [by apply step_within_cap|].
      pose proof (step_budget s Hs Ht). lia.
Qed.

End facts.

End AgentLoopFacts.

(** C4: with the executor of the script, whatever the reasoning engine asks
    for and whatever the tools answer, the loop has made at most 3 tool-call
    iterations at any moment, and within 11 transitions it has come to rest:
    it is forced to end. *)
Theorem tool_call_iterations_bounded env
    (engine : AgentLoop.Engine) (run_tool : AgentLoop.ToolRunner) :
  let cap := max_iterations (create_agent env) in
  cap = 3
  ∧ (∀ n,
       let s := AgentLoop.run cap engine run_tool n AgentLoop.initial in
       length (AgentLoop.scratchpad s) ≤ AgentLoop.iterations s
       ∧ AgentLoop.iterations s ≤ 3)
  ∧ AgentLoop.terminal
      (AgentLoop.run cap engine run_tool 11 AgentLoop.initial) = true
  ∧ length (AgentLoop.tool_calls cap engine run_tool) ≤ 3.
Proof.
  intros cap. change cap with 3. split; [done|].
  pose proof (AgentLoopFacts.initial_within_cap 3) as Hi.
  split; [|split].
  - intros n. cbv zeta.
    destruct (AgentLoopFacts.run_within_cap 3 engine run_tool n _ Hi)
      as [Hb _]. lia.
  - apply AgentLoopFacts.run_rests; [done|]. vm_compute. lia.
  - unfold AgentLoop.tool_calls.
    destruct (AgentLoopFacts.run_within_cap 3 engine run_tool
                (AgentLoop.budget 3 AgentLoop.initial) _ Hi) as [Hb _].
    lia.
Qed.

(** The bound is reached: the engine that always asks for a tool gets
    exactly three calls through. *)
Example greedy_engine_three_calls :
  length (AgentLoop.tool_calls 3 AgentLoop.greedy
            (AgentLoop.script_runner (λ q, inl ("results for " +:+ q)))) = 3.
Proof. reflexivity. Qed.

(** * Further properties of the script *)

(** ** A run, case by case *)

Lemma missing_truthy v : missing v ↔ PyStr.truthy_opt v = false.
Proof.
  unfold missing. destruct v as [[|c s]|]; simpl; split; try done;
    try (intros [?|?]; done); auto.
Qed.

Lemma submits_spec form :
  submits form = true
  ↔ analyze_btn form = true
    ∧ blank (idea form) = false ∧ blank (target_users form) = false.
Proof.
  unfold submits. rewrite !andb_true_iff, !negb_true_iff. tauto.
Qed.

(** What a run gives, in full: the outcome and the world after it. *)
Lemma main_unfolded env form world w :
  main env form world w
  = if configured env then
      if analyze_btn form then
        if blank (idea form) || blank (target_users form) then
          (Done (),
           {| session_state := session_state (ready env w);
              log := log w ++ page ++ [StWarning
                "⚠️ Please fill in both idea and target users fields."] |})
        else
          match world (executor_of env w) (request form) (history_of w) with
          | inl r =>
              (Done (),
               {| session_state :=
                    {| agent_executor := Some (executor_of env w);
                       chat_history :=
                         Some (history_of w
                               ++ exchange (request form) (output_of r)) |};
                  log := log w ++ page
                    ++ [StSpinner "🔍 Evaluating your startup idea...";
                        Invoke (executor_of env w) (request form)
                          (history_of w);
                        StSubheader "📊 Startup Evaluation Result"]
                    ++ rendering (output_of r) |})
          | inr e =>
              (Done (),
               {| session_state := session_state (ready env w);
                  log := log w ++ page
                    ++ [StSpinner "🔍 Evaluating your startup idea...";
                        Invoke (executor_of env w) (request form)
                          (history_of w);
                        StError (agent_error e)] |})
          end
      else (Done (), ready env w)
    else
      (Halted,
       {| session_state := session_state w;
          log := log w ++ [configuration_error] |}).
Proof.
  destruct (configured env) eqn:Hc; [|by apply main_unconfigured].
  destruct (analyze_btn form) eqn:Hb;
    [|by rewrite main_configured, Hb by done].
  destruct (blank (idea form) || blank (target_users form)) eqn:Hblank.
  - apply orb_prop in Hblank.
    rewrite main_configured, Hb, main_logic_blank by done.
    simpl. by rewrite <- app_assoc.
  - apply orb_false_elim in Hblank as [Hi Ht].
    rewrite valid_submission_evaluated by done. fold (request form).
    destruct (world _ _ _) as [r|e] eqn:Hw.
    + rewrite (evaluate_returned _ _ _ _ _ _ Hw).
      unfold exchange. by rewrite <- !app_assoc.
    + rewrite (evaluate_raised _ _ _ _ _ _ Hw).
      unfold ready, executor_of. simpl. by rewrite <- !app_assoc.
Qed.

(** X1: a key that is set to the empty text is taken as missing, like a key
    that is not set: the run shows the configuration error and stops, and
    the session state is left as it was. *)
Theorem empty_key_halts env form world w :
  missing (GROQ_API_KEY env) ∨ missing (TAVILY_API_KEY env) →
  main env form world w
  = (Halted,
     {| session_state := session_state w;
        log := log w ++ [StError
          "GROQ_API_KEY or TAVILY_API_KEY missing in .env"] |}).
Proof.
  rewrite !missing_truthy. intros Hm. apply main_unconfigured.
  unfold configured. destruct Hm as [-> | ->]; [done|apply andb_false_r].
Qed.

Lemma empty_key_halts_witness :
  main Sample.env_with_empty_key Sample.submission Sample.answering fresh
  = (Halted,
     {| session_state := session_state fresh;
        log := log fresh ++ [StError
          "GROQ_API_KEY or TAVILY_API_KEY missing in .env"] |}).
Proof.
  apply (empty_key_halts Sample.env_with_empty_key Sample.submission
           Sample.answering fresh).
  left. right. reflexivity.
Defined.

(** X2: a run never ends with an exception on its way up, whatever the
    agent does and whatever the session state holds: it is stopped when a
    key is missing, and ends normally in every other case. *)
Theorem run_never_raises env form world w :
  fst (main env form world w)
  = if bool_decide (missing (GROQ_API_KEY env) ∨ missing (TAVILY_API_KEY env))
    then Halted else Done ().
Proof.
  rewrite main_unfolded. unfold configured.
  case_bool_decide as Hm; rewrite !missing_truthy in Hm.
  - destruct Hm as [-> | ->]; [done|by rewrite andb_false_r].
  - destruct (PyStr.truthy_opt (GROQ_API_KEY env)); [|by destruct Hm; left].
    destruct (PyStr.truthy_opt (TAVILY_API_KEY env));
      [|by destruct Hm; right]. simpl.
    destruct (analyze_btn form); [|done].
    destruct (_ || _); [done|]. by destruct (world _ _ _).
Qed.

(** X3: what a run does to the history, in every case: the exchange is
    appended when the form is submitted in a configured run and the agent
    returns, and nothing changes otherwise (no button, blank field, missing
    key, failing agent). *)
Theorem history_after_run env form world w :
  history_of (snd (main env form world w))
  = history_of w
    ++ (if configured env && submits form then
          match world (executor_of env w) (request form) (history_of w) with
          | inl r => exchange (request form) (output_of r)
          | inr _ => []
          end
        else []).
Proof.
  rewrite main_unfolded. unfold submits.
  destruct (configured env); simpl; [|by rewrite app_nil_r].
  destruct (analyze_btn form); simpl; [|by rewrite app_nil_r].
  destruct (blank (idea form)), (blank (target_users form)); simpl;
    try by rewrite app_nil_r.
  destruct (world _ _ _); simpl; [done|by rewrite app_nil_r].
Qed.

(** X4: the agent is invoked at most once in a run, and exactly when the
    form is submitted in a configured run; it is then given the executor of
    the session, the request text and the history as it is before the
    run. *)
Theorem invocations_after_run env form world w :
  invocations (log (snd (main env form world w)))
  = invocations (log w)
    ++ (if configured env && submits form
        then [Invoke (executor_of env w) (request form) (history_of w)]
        else []).
Proof.
  rewrite main_unfolded. unfold submits, ready.
  destruct (configured env), (analyze_btn form), (blank (idea form)),
    (blank (target_users form)); cbn [andb negb orb];
    try destruct (world _ _ _); cbn [snd log];
    rewrite !invocations_app, ?invocations_rendering; simpl;
    by rewrite ?app_nil_r.
Qed.

(** X5: when the answer of the agent has no ["output"] entry, the text kept
    as the assistant entry of the history, and shown, is the answer as
    text, [str(response)]. *)
Theorem answer_without_output env form world w response :
  configured env = true →
  submits form = true →
  world (executor_of env w) (request form) (history_of w) = inl response →
  resp_items response !! "output" = None →
  let w' := snd (main env form world w) in
  history_of w'
  = history_of w ++ [("human", request form);
                     ("assistant", resp_str response)]
  ∧ ∃ shown, log w' = log w ++ shown ++ rendering (resp_str response).
Proof.
  intros Hc Hs Hw Hout. cbv zeta.
  assert (output_of response = resp_str response) as Ho.
  { unfold output_of, dict_get. by rewrite Hout. }
  apply submits_spec in Hs as (Hb & Hi & Ht).
  rewrite main_unfolded, Hc, Hb, Hi, Ht, Hw. simpl. rewrite Ho.
  split; [done|].
  eexists (page ++ [_; _; _]). by rewrite <- !app_assoc.
Qed.

Lemma answer_without_output_witness :
  let w' := snd (main Sample.env Sample.submission Sample.answering_oddly
                   fresh) in
  history_of w'
  = history_of fresh ++ [("human", request Sample.submission);
                         ("assistant", "{'result': 'n/a'}")]
  ∧ ∃ shown, log w' = log fresh ++ shown ++ rendering "{'result': 'n/a'}".
Proof.
  apply (answer_without_output Sample.env Sample.submission
           Sample.answering_oddly fresh Sample.odd_answer); reflexivity.
Defined.

(** ** The session state and the log over a session *)

(** What one run adds: to the history nothing or the exchange of the
    request, and to the log events among which the only invocation there
    can be is that of the request, with the executor of the session and the
    history as it was. *)
Lemma rerun_step w i :
  let w' := snd (rerun w i) in
  ∃ added shown,
    history_of w' = history_of w ++ added
    ∧ log w' = log w ++ shown
    ∧ (added = []
       ∨ ∃ output,
           added = exchange (request (i_form i)) output
           ∧ Invoke (executor_of (i_env i) w) (request (i_form i))
               (history_of w) ∈ shown)
    ∧ (∀ ex input h, Invoke ex input h ∈ shown →
         ex = executor_of (i_env i) w ∧ input = request (i_form i)
         ∧ h = history_of w).
Proof.
  destruct i as [env form world]. unfold rerun. cbn [i_env i_form i_world].
  rewrite main_unfolded.
  destruct (configured env).
  2:{ exists [], [configuration_error]. cbn [snd log]. rewrite app_nil_r.
      split; [done|]. split; [done|]. split; [by left|].
      intros ex input h [H|[]%elem_of_nil]%elem_of_cons. discriminate H. }
  destruct (analyze_btn form).
  2:{ exists [], page. cbn [snd]. unfold ready, history_of at 1.
      cbn [log session_state chat_history default]. rewrite app_nil_r.
      split; [done|]. split; [done|]. split; [by left|].
      intros ex input h H. by apply invoke_not_page in H. }
  destruct (blank (idea form) || blank (target_users form)).
  { eexists [], (page ++ [_]). cbn [snd]. unfold ready, history_of at 1.
    cbn [log session_state chat_history default].
    rewrite app_nil_r.
    split; [done|]. split; [done|]. split; [by left|].
    intros ex input h [H|H]%elem_of_app; [by apply invoke_not_page in H|].
    apply elem_of_cons in H as [H|[]%elem_of_nil]. discriminate H. }
  destruct (world _ _ _) as [r|e].
  - eexists _, (page ++ [_; _; _] ++ rendering _). cbn [snd].
    unfold history_of at 1. cbn [log session_state chat_history default].
    split; [done|]. split; [done|]. split.
    + right. eexists. split; [done|]. set_solver.
    + intros ex input h. rewrite !elem_of_app, !elem_of_cons, elem_of_nil.
      intros [H|[[H|[H|[H|[]]]]|H]]; try discriminate H.
      * by apply invoke_not_page in H.
      * by inversion H.
      * by apply invoke_not_rendering in H.
  - eexists [], (page ++ [_; _; _]). cbn [snd]. unfold ready, history_of at 1.
    cbn [log session_state chat_history default]. rewrite app_nil_r.
    split; [done|]. split; [done|]. split; [by left|].
    intros ex input h. rewrite !elem_of_app, !elem_of_cons, elem_of_nil.
    intros [H|[H|[H|[H|[]]]]]; try discriminate H.
    + by apply invoke_not_page in H.
    + by inversion H.
Qed.

Lemma run_executor env form world w :
  agent_executor (session_state (snd (main env form world w)))
  = if configured env then Some (executor_of env w)
    else agent_executor (session_state w).
Proof.
  rewrite main_unfolded.
  destruct (configured env); [|done].
  destruct (analyze_btn form); [|done].
  destruct (_ || _); [done|]. by destruct (world _ _ _).
Qed.

(** The executor that is in the session state stays there, and no later
    invocation goes to another one. *)
Lemma play_executor w runs ex :
  agent_executor (session_state w) = Some ex →
  agent_executor (session_state (play w runs)) = Some ex
  ∧ ∀ ex' input h, Invoke ex' input h ∈ log (play w runs) →
      Invoke ex' input h ∈ log w ∨ ex' = ex.
Proof.
  revert w. induction runs as [|i runs IH]; intros w Hex; [by auto|].
  unfold play. cbn [foldl]. fold (play (snd (rerun w i)) runs).
  assert (executor_of (i_env i) w = ex) as Hof
    by (unfold executor_of; by rewrite Hex).
  destruct (IH (snd (rerun w i))) as [Hs Hl].
  { unfold rerun. rewrite run_executor, Hof, Hex. by destruct (configured _). }
  split; [done|]. intros ex' input h H.
  destruct (Hl _ _ _ H) as [H'|H']; [|by right].
  destruct (rerun_step w i) as (added & shown & _ & Hlog & _ & Hinv).
  rewrite Hlog in H'. apply elem_of_app in H' as [H'|H']; [by left|].
  right. destruct (Hinv _ _ _ H') as (-> & _). done.
Qed.

(** X6: the executor is made when a configured run finds none in the
    session state, with the keys of that run, and is never made again: a
    run leaves the executor that is there in place, whatever the keys in
    the environment have become. *)
Theorem executor_after_run env form world w :
  agent_executor (session_state (snd (main env form world w)))
  = if configured env
    then Some (default (create_agent env) (agent_executor (session_state w)))
    else agent_executor (session_state w).
Proof. apply run_executor. Qed.

(** X7: in a session whose first run is configured, every invocation goes
    to the executor made in that first run, with the keys the environment
    had then, whatever it holds in the later runs. *)
Theorem session_keeps_first_executor i0 runs ex input h :
  configured (i_env i0) = true →
  Invoke ex input h ∈ log (session (i0 :: runs)) →
  ex = create_agent (i_env i0).
Proof.
  intros Hc H. unfold session, play in H. cbn [foldl] in H.
  fold (play (snd (rerun fresh i0)) runs) in H.
  destruct (play_executor (snd (rerun fresh i0)) runs
              (create_agent (i_env i0))) as [_ Hl].
  { unfold rerun. by rewrite run_executor, Hc. }
  destruct (Hl _ _ _ H) as [H'|H']; [|done].
  destruct (rerun_step fresh i0) as (added & shown & _ & Hlog & _ & Hinv).
  rewrite Hlog in H'. apply elem_of_app in H' as [H'|H'].
  - by apply elem_of_nil in H'.
  - by destruct (Hinv _ _ _ H') as (-> & _).
Qed.

Lemma session_keeps_first_executor_witness :
  executor_of Sample.env fresh = create_agent Sample.env.
Proof.
  apply (session_keeps_first_executor
           {| i_env := Sample.env; i_form := Sample.submission;
              i_world := Sample.answering |}
           [{| i_env := Sample.env_rotated; i_form := Sample.follow_up;
               i_world := Sample.answering |}]
           (executor_of Sample.env fresh)
           (request Sample.follow_up)
           (exchange (request Sample.submission)
              (output_of Sample.answer)));
    [reflexivity|].
  apply (list_elem_of_lookup_2 _ 20). vm_compute. reflexivity.
Defined.

(** X8: every invocation of a session was given, as its history, a
    beginning of the history the session has now: what the agent saw then
    is still there, in the same order, before what came later. *)
Theorem invocations_saw_history runs ex input h :
  Invoke ex input h ∈ log (session runs) →
  h `prefix_of` history_of (session runs).
Proof.
  unfold session. revert ex input h.
  induction runs as [|i runs IH] using rev_ind; intros ex input h H.
  - by apply elem_of_nil in H.
  - rewrite play_snoc in *.
    destruct (rerun_step (play fresh runs) i)
      as (added & shown & Hh & Hlog & _ & Hinv).
    rewrite Hh. rewrite Hlog in H. apply elem_of_app in H as [H|H].
    + etrans; [by eapply IH|]. by apply prefix_app_r.
    + destruct (Hinv _ _ _ H) as (_ & _ & ->). by apply prefix_app_r.
Qed.

Lemma invocations_saw_history_witness :
  exchange (request Sample.submission) (output_of Sample.answer)
  `prefix_of` history_of (session Sample.two_submissions).
Proof.
  apply (invocations_saw_history Sample.two_submissions
           (executor_of Sample.env fresh) (request Sample.follow_up)).
  apply (list_elem_of_lookup_2 _ 20). vm_compute. reflexivity.
Defined.

(** X9: two submissions in a row, the first one answered: the second
    invocation goes to the same executor, even when the keys of the
    environment have changed in between, and is given the history with the
    first exchange at its end. *)
Theorem follow_up_sees_exchange w i1 i2 r :
  configured (i_env i1) = true → configured (i_env i2) = true →
  submits (i_form i1) = true → submits (i_form i2) = true →
  i_world i1 (executor_of (i_env i1) w) (request (i_form i1)) (history_of w)
  = inl r →
  invocations (log (play w [i1; i2]))
  = invocations (log w)
    ++ [Invoke (executor_of (i_env i1) w) (request (i_form i1))
          (history_of w);
        Invoke (executor_of (i_env i1) w) (request (i_form i2))
          (history_of w
           ++ [("human", request (i_form i1)); ("assistant", output_of r)])].
Proof.
  destruct i1 as [env1 form1 world1], i2 as [env2 form2 world2].
  cbn [i_env i_form i_world].
  intros Hc1 Hc2 (Hb1 & Hi1 & Ht1)%submits_spec (Hb2 & Hi2 & Ht2)%submits_spec
    Hw.
  unfold play, rerun. cbn [foldl i_env i_form i_world].
  rewrite (main_unfolded env1), Hc1, Hb1, Hi1, Ht1, Hw. cbn [orb snd].
  rewrite (main_unfolded env2), Hc2, Hb2, Hi2, Ht2. cbn [orb].
  unfold executor_of at 1 2 3 4, history_of at 1 2 3 4.
  cbn [session_state agent_executor chat_history default log].
  fold (executor_of env1 w). fold (history_of w). unfold exchange.
  destruct (world2 _ _ _); cbn [snd log];
    rewrite !invocations_app, ?invocations_rendering; simpl;
    by rewrite ?app_nil_r, <- ?app_assoc.
Qed.

Lemma follow_up_sees_exchange_witness :
  invocations (log (play fresh Sample.two_submissions))
  = invocations (log fresh)
    ++ [Invoke (executor_of Sample.env fresh) (request Sample.submission)
          (history_of fresh);
        Invoke (executor_of Sample.env fresh) (request Sample.follow_up)
          (history_of fresh
           ++ [("human", request Sample.submission);
               ("assistant", output_of Sample.answer)])].
Proof.
  apply (follow_up_sees_exchange fresh
           {| i_env := Sample.env; i_form := Sample.submission;
              i_world := Sample.answering |}
           {| i_env := Sample.env_rotated; i_form := Sample.follow_up;
              i_world := Sample.answering |}
           Sample.answer); reflexivity.
Defined.

(** X10: the history of a session holds only what went through the agent:
    every human entry is the input of an invocation in the log, and the
    history has at most two entries for each invocation. *)
Theorem history_from_invocations runs :
  (∀ input, ("human", input) ∈ history_of (session runs) →
     ∃ ex h, Invoke ex input h ∈ log (session runs))
  ∧ length (history_of (session runs))
    ≤ 2 * length (invocations (log (session runs))).
Proof.
  unfold session. induction runs as [|i runs [IH1 IH2]] using rev_ind.
  - split; [|done]. intros input H. by apply elem_of_nil in H.
  - rewrite play_snoc.
    destruct (rerun_step (play fresh runs) i)
      as (added & shown & Hh & Hlog & Ha & _).
    rewrite Hh, Hlog. split.
    + intros input [H|H]%elem_of_app.
      * destruct (IH1 _ H) as (ex & h & Hin). exists ex, h.
        apply elem_of_app. by left.
      * destruct Ha as [->|(output & -> & Hin)];
          [by apply elem_of_nil in H|].
        unfold exchange in H. rewrite !elem_of_cons, elem_of_nil in H.
        destruct H as [H|[H|[]]]; [|discriminate H].
        injection H as ->. eexists _, _. apply elem_of_app. by right.
    + rewrite length_app, invocations_app, length_app.
      destruct Ha as [->|(output & -> & Hin)]; simpl; [lia|].
      assert (1 ≤ length (invocations shown)); [|lia].
      unfold invocations. apply list_elem_of_In in Hin.
      pose proof (proj2 (filter_In is_invoke _ shown) (conj Hin eq_refl))
        as Hin'.
      destruct (List.filter is_invoke shown); [by destruct Hin'|simpl; lia].
Qed.

Lemma history_from_invocations_witness :
  ∃ ex h, Invoke ex (request Sample.follow_up) h
            ∈ log (session Sample.two_submissions).
Proof.
  apply (proj1 (history_from_invocations Sample.two_submissions)).
  apply (list_elem_of_lookup_2 _ 2). vm_compute. reflexivity.
Defined.

(** ** The lines of the result (lines 147-149) *)

Section lines.

Lemma split_not_nil sep s : PyStr.split sep s ≠ [].
Proof.
  destruct s as [|c s]; simpl; [done|].
  destruct (Ascii.eqb c sep); [done|]. by destruct (PyStr.split sep s).
Qed.

Lemma split_concat sep s :
  String.concat (String sep EmptyString) (PyStr.split sep s) = s.
Proof.
  induction s as [|c s IH]; simpl; [done|].
  pose proof (split_not_nil sep s) as Hne.
  destruct (Ascii.eqb_spec c sep) as [->|Hc].
  - destruct (PyStr.split sep s) as [|p ps]; [done|].
    rewrite <- IH. reflexivity.
  - destruct (PyStr.split sep s) as [|p ps]; [done|].
    rewrite <- IH. by destruct ps.
Qed.

Lemma split_pieces_clean sep s piece :
  piece ∈ PyStr.split sep s → occurs sep piece = false.
Proof.
  revert piece. induction s as [|c s IH]; simpl; intros piece.
  - intros [->|[]%elem_of_nil]%elem_of_cons. done.
  - pose proof (split_not_nil sep s) as Hne.
    destruct (Ascii.eqb c sep) eqn:Hc.
    + intros [->|H]%elem_of_cons; [done|by apply IH].
    + destruct (PyStr.split sep s) as [|p ps]; [done|].
      intros [->|H]%elem_of_cons.
      * simpl. rewrite Hc. apply IH. by left.
      * apply IH. by right.
Qed.

Lemma split_pieces_blank sep s piece :
  blank s = true → piece ∈ PyStr.split sep s → blank piece = true.
Proof.
  unfold blank. revert piece. induction s as [|c s IH]; simpl; intros piece.
  - intros _ [->|[]%elem_of_nil]%elem_of_cons. done.
  - intros [Hc Hs]%andb_prop.
    pose proof (split_not_nil sep s) as Hne.
    destruct (Ascii.eqb c sep).
    + intros [->|H]%elem_of_cons; [done|by apply IH].
    + destruct (PyStr.split sep s) as [|p ps]; [done|].
      intros [->|H]%elem_of_cons.
      * simpl. rewrite Hc. apply IH; [done|by left].
      * apply IH; [done|by right].
Qed.

End lines.

(** X11: cutting the output at the line feeds loses nothing and leaves no
    line feed behind: the pieces joined with line feeds are the output
    again, there is always at least one piece, and no piece holds a line
    feed. *)
Theorem split_lines_round_trip text :
  String.concat PyStr.nl (PyStr.split PyStr.LF text) = text
  ∧ PyStr.split PyStr.LF text ≠ []
  ∧ ∀ line, line ∈ PyStr.split PyStr.LF text →
      occurs PyStr.LF line = false.
Proof.
  split; [apply split_concat|]. split; [apply split_not_nil|].
  intros line. apply split_pieces_clean.
Qed.

Lemma split_lines_round_trip_witness :
  occurs PyStr.LF "Viability score: 7/10" = false.
Proof.
  apply (proj2 (proj2 (split_lines_round_trip
                         (output_of Sample.answer)))).
  apply (list_elem_of_lookup_2 _ 2). reflexivity.
Defined.

(** X12: the blocks shown for a result are its lines that are not blank,
    each one whole and in the order of the text: a block is never blank and
    never holds a line feed, and a result that is empty or white space only
    gives no block at all. *)
Theorem rendering_shows_nonblank_lines text :
  rendering text
  = StMarkdown <$>
      List.filter (λ line, negb (blank line)) (PyStr.split PyStr.LF text)
  ∧ (∀ e, e ∈ rendering text →
       ∃ line, e = StMarkdown line ∧ line ∈ PyStr.split PyStr.LF text
         ∧ blank line = false ∧ occurs PyStr.LF line = false)
  ∧ (blank text = true → rendering text = []).
Proof.
  assert (rendering text
          = StMarkdown <$> List.filter (λ line, negb (blank line))
                             (PyStr.split PyStr.LF text)) as Hr.
  { unfold rendering. f_equal. apply filter_ext. intros line.
    apply strip_blank. }
  split; [done|]. split.
  - rewrite Hr. intros e (line & -> & Hin)%list_elem_of_fmap.
    apply list_elem_of_In in Hin. apply filter_In in Hin as [Hin Hb].
    apply list_elem_of_In in Hin. apply negb_true_iff in Hb.
    exists line. repeat split; [done|done|by eapply split_pieces_clean].
  - intros Hb. rewrite Hr. clear Hr.
    assert (∀ line, line ∈ PyStr.split PyStr.LF text → blank line = true)
      as Hall by (intros line; by apply split_pieces_blank).
    induction (PyStr.split PyStr.LF text) as [|l ls IH]; [done|].
    simpl. rewrite (Hall l) by by left. simpl.
    apply IH. intros line Hin. apply Hall. by right.
Qed.

Lemma rendering_shows_nonblank_lines_witness :
  rendering "  
 " = [].
Proof.
  apply (proj2 (proj2 (rendering_shows_nonblank_lines _))). reflexivity.
Defined.

(** ** More on the user-segment expander *)

Section expander.

Lemma known_keys_lower key : key ∈ known_keys → PyStr.lower key = key.
Proof.
  unfold known_keys. rewrite !elem_of_cons, elem_of_nil.
  by intros [->|[->|[->|[]]]].
Qed.

Lemma known_keys_stripped key : key ∈ known_keys → PyStr.strip key = key.
Proof.
  unfold known_keys. rewrite !elem_of_cons, elem_of_nil.
  by intros [->|[->|[->|[]]]].
Qed.

Lemma fallback_not_expansion label : fallback label ∉ known_expansions.
Proof.
  unfold known_expansions, fallback.
  rewrite !elem_of_cons, elem_of_nil.
  intros [H|[H|[H|[]]]]; discriminate H.
Qed.

Lemma isspace_lower_char c :
  PyStr.isspace (PyStr.lower_char c) = PyStr.isspace c.
Proof. by destruct c as [[] [] [] [] [] [] [] []]. Qed.

Lemma lstrip_lower s :
  PyStr.lstrip (PyStr.lower s) = PyStr.lower (PyStr.lstrip s).
Proof.
  induction s as [|c s IH]; [done|].
  cbn [PyStr.lower PyStr.lstrip]. rewrite isspace_lower_char.
  by destruct (PyStr.isspace c).
Qed.

Lemma rstrip_lower s :
  PyStr.rstrip (PyStr.lower s) = PyStr.lower (PyStr.rstrip s).
Proof.
  induction s as [|c s IH]; [done|].
  cbn [PyStr.lower PyStr.rstrip]. rewrite IH, isspace_lower_char.
  destruct (PyStr.rstrip s); [|done]. by destruct (PyStr.isspace c).
Qed.

Lemma strip_lower s :
  PyStr.strip (PyStr.lower s) = PyStr.lower (PyStr.strip s).
Proof. unfold PyStr.strip. by rewrite lstrip_lower, rstrip_lower. Qed.

Lemma length_lower s : String.length (PyStr.lower s) = String.length s.
Proof. induction s as [|c s IH]; simpl; congruence. Qed.

Lemma length_lstrip s :
  String.length (PyStr.lstrip s) ≤ String.length s
  ∧ (String.length (PyStr.lstrip s) = String.length s → PyStr.lstrip s = s).
Proof.
  induction s as [|c s [IH _]]; simpl; [done|].
  destruct (PyStr.isspace c); simpl; [|done]. split; lia.
Qed.

Lemma length_rstrip s :
  String.length (PyStr.rstrip s) ≤ String.length s
  ∧ (String.length (PyStr.rstrip s) = String.length s → PyStr.rstrip s = s).
Proof.
  induction s as [|c s [IH1 IH2]]; simpl; [done|].
  destruct (PyStr.rstrip s) as [|d r] eqn:Hr.
  - destruct (PyStr.isspace c); simpl in *; [split; [lia|done]|].
    split; [lia|]. intros H. destruct s; [done|simpl in H; lia].
  - simpl in *. split; [lia|]. intros H. f_equal. apply IH2. lia.
Qed.

(** Stripping that removes no character changes nothing. *)
Lemma strip_same_length s :
  String.length (PyStr.strip s) = String.length s → PyStr.strip s = s.
Proof.
  unfold PyStr.strip. intros H.
  destruct (length_lstrip s) as [Hl1 Hl2].
  destruct (length_rstrip (PyStr.lstrip s)) as [Hr1 Hr2].
  rewrite Hr2 by lia. apply Hl2. lia.
Qed.

End expander.

(** X13: each of the three known labels is recognised in any letter casing
    and gets the expansion the dictionary holds for it. *)
Theorem known_labels_any_casing key expansion label :
  mapping !! key = Some expansion →
  casing_of key label = true →
  expand_target_users label = expansion.
Proof.
  intros Hm Hl. unfold expand_target_users, dict_get.
  rewrite (lower_casing _ _ Hl), known_keys_lower, Hm; [done|].
  apply mapping_keys. by rewrite Hm.
Qed.

Lemma known_labels_any_casing_witness :
  expand_target_users "Business Owners"
  = "Small business owners, Entrepreneurs, Startup founders".
Proof.
  apply (known_labels_any_casing "business owners"); reflexivity.
Defined.

(** X14: the answer tells whether the label was known: it is one of the
    three fixed expansions exactly when the lower-cased label is a key of
    the dictionary, and the fall-back sentence is never one of them. *)
Theorem answer_tells_known_label label :
  expand_target_users label ∈ known_expansions
  ↔ PyStr.lower label ∈ known_keys.
Proof.
  unfold expand_target_users, dict_get.
  destruct (mapping !! PyStr.lower label) as [v|] eqn:Hm; simpl.
  - split; intros _; [|by eapply mapping_values].
    apply mapping_keys. by rewrite Hm.
  - split.
    + intros H. by apply fallback_not_expansion in H.
    + intros H%mapping_keys. rewrite Hm in H. by apply is_Some_None in H.
Qed.

Lemma answer_tells_known_label_witness :
  PyStr.lower "DEVELOPERS" ∈ known_keys.
Proof.
  apply (proj1 (answer_tells_known_label "DEVELOPERS")).
  apply (list_elem_of_lookup_2 _ 2). reflexivity.
Defined.

(** X15: the expander does not trim its input: a label with white space
    before or after it, such as a known label followed by a blank, is not
    recognised and gets the fall-back sentence, white space included. *)
Theorem untrimmed_label_unknown label :
  PyStr.strip label ≠ label →
  expand_target_users label = fallback label.
Proof.
  intros Hs. unfold expand_target_users, dict_get.
  destruct (mapping !! PyStr.lower label) as [v|] eqn:Hm; [|done].
  destruct Hs. apply strip_same_length.
  assert (PyStr.lower label ∈ known_keys) as Hk
    by (apply mapping_keys; by rewrite Hm).
  apply known_keys_stripped in Hk. rewrite strip_lower in Hk.
  by rewrite <- length_lower, Hk, length_lower.
Qed.

Lemma untrimmed_label_unknown_witness :
  expand_target_users "students " = fallback "students ".
Proof.
  apply (untrimmed_label_unknown "students "). discriminate.
Defined.

(** ** The request text and the keys *)

Lemma append_assoc (a b c : string) : (a +:+ b) +:+ c = a +:+ b +:+ c.
Proof.
  induction a as [|x a IH]; [reflexivity|].
  change (String x ((a +:+ b) +:+ c) = String x (a +:+ b +:+ c)).
  by f_equal.
Qed.

Lemma append_length (a b : string) :
  String.length (a +:+ b) = String.length a + String.length b.
Proof.
  induction a as [|x a IH]; [reflexivity|].
  change (S (String.length (a +:+ b))
          = S (String.length a + String.length b)).
  by f_equal.
Qed.

(** X16: the fields are put into the request text as they are, so the text
    does not tell where one field ends: a line break in the idea followed
    by the label of the target users gives the very text of another form,
    in which those words are part of the target users. *)
Theorem request_fields_not_delimited (a b c m : string) (pressed : bool) :
  let forged :=
    {| idea := a +:+ PyStr.nl +:+ "Target Users: " +:+ b;
       target_users := c; market_info := m; analyze_btn := pressed |} in
  let plain :=
    {| idea := a;
       target_users := b +:+ PyStr.nl +:+ "Target Users: " +:+ c;
       market_info := m; analyze_btn := pressed |} in
  request forged = request plain ∧ forged ≠ plain.
Proof.
  cbv zeta. split.
  - unfold request, user_input_of. cbn [idea target_users market_info].
    by rewrite !append_assoc.
  - intros H. apply (f_equal (λ f, String.length (idea f))) in H.
    cbn [idea] in H. rewrite !append_length in H. simpl in H. lia.
Qed.

(** The executors of a session are made by [create_agent] in a configured
    run. *)
Lemma session_executors runs :
  (∀ ex, agent_executor (session_state (session runs)) = Some ex →
     ∃ env, configured env = true ∧ ex = create_agent env)
  ∧ (∀ ex input h, Invoke ex input h ∈ log (session runs) →
       ∃ env, configured env = true ∧ ex = create_agent env).
Proof.
  unfold session. induction runs as [|i runs [IHs IHl]] using rev_ind.
  - split; [done|]. intros ex input h H. by apply elem_of_nil in H.
  - rewrite play_snoc. set (w := play fresh runs) in *.
    assert (configured (i_env i) = true →
            ∃ env, configured env = true
                   ∧ executor_of (i_env i) w = create_agent env) as Hof.
    { intros Hc. unfold executor_of.
      destruct (agent_executor (session_state w)) as [ex|] eqn:He; simpl;
        [by apply IHs|by exists (i_env i)]. }
    split.
    + intros ex. unfold rerun. rewrite run_executor.
      destruct (configured (i_env i)) eqn:Hc; [|by apply IHs].
      intros [= <-]. by apply Hof.
    + intros ex input h. unfold rerun. rewrite main_unfolded.
      destruct (configured (i_env i)) eqn:Hc.
      * destruct (rerun_step w i) as (added & shown & _ & Hlog & _ & Hinv).
        unfold rerun in Hlog. rewrite main_unfolded, Hc in Hlog.
        rewrite Hlog. intros [H|H]%elem_of_app; [by eapply IHl|].
        destruct (Hinv _ _ _ H) as (-> & _). by apply Hof.
      * cbn [snd log]. intros [H|H]%elem_of_app; [by eapply IHl|].
        apply elem_of_cons in H as [H|[]%elem_of_nil]. discriminate H.
Qed.

(** X17: no invocation is ever made with a key that is missing: in every
    session, the executor of every invocation holds a language-model key
    and a search key that are set and not empty. *)
Theorem invocations_have_keys runs ex input h :
  Invoke ex input h ∈ log (session runs) →
  PyStr.truthy_opt (api_key (agent_llm (agent ex))) = true
  ∧ ∀ cfg, SearchTool cfg ∈ tools ex →
      PyStr.truthy_opt (tavily_key cfg) = true.
Proof.
  intros H.
  destruct (proj2 (session_executors runs) _ _ _ H) as (env & Hc & ->).
  apply andb_prop in Hc as [Hg Ht]. split; [done|].
  intros cfg. simpl. unfold script_tools.
  rewrite !elem_of_cons, elem_of_nil.
  intros [Hcfg|[Hcfg|[]]]; [|discriminate Hcfg]. by injection Hcfg as ->.
Qed.

Lemma invocations_have_keys_witness :
  PyStr.truthy_opt
    (api_key (agent_llm (agent (executor_of Sample.env fresh)))) = true
  ∧ ∀ cfg, SearchTool cfg ∈ tools (executor_of Sample.env fresh) →
      PyStr.truthy_opt (tavily_key cfg) = true.
Proof.
  apply (invocations_have_keys Sample.two_submissions
           (executor_of Sample.env fresh) (request Sample.follow_up)
           (exchange (request Sample.submission)
              (output_of Sample.answer))).
  apply (list_elem_of_lookup_2 _ 20). vm_compute. reflexivity.
Defined.
